(** * react-portals: the [Modal] portal component and the [App] shell

    A shallow embedding of [components/modal] (the overlay component) and
    [App.tsx] (the shell that owns the visibility flag), together with the
    small part of the browser and of React that the two files rely on:

    - the document, a tree of nodes searched by [document.getElementById];
    - React nodes: host elements with an inline [style] and an optional
      [onClick] listener, text, arrays of children, [null], and portals;
    - [createPortal], which refuses a container that is not a DOM element;
    - React's click dispatch: listeners run from the target outwards along
      the React tree (a portal's content bubbles to the portal's React
      parent), each listener receives the synthetic event, and
      [e.stopPropagation()] ends the walk;
    - [useState], with an update queue that is processed after the event. *)

From Stdlib Require Import ZArith String.
From stdpp Require Import base option list strings.

Set Warnings "-register-all".

(** ** The document *)

Module Dom.

(** Inline style values: [top: 0] and [zIndex: 1000] are numbers, the rest
    are strings. *)
Inductive CssValue :=
| CssNum (n : Z)
| CssStr (s : string).

Definition Style := list (string * CssValue).

Inductive Node :=
| TextNode (data : string)
| Element (tagName : string) (id : option string) (style : Style)
          (childNodes : list Node).

(** A node is addressed by the indices of the children to follow from the
    document element. *)
Definition Path := list nat.

Definition ELEMENT_NODE : Z := 1.
Definition DOCUMENT_NODE : Z := 9.
Definition DOCUMENT_FRAGMENT_NODE : Z := 11.

Definition childNodes (n : Node) : list Node :=
  match n with
  | TextNode _ => []
  | Element _ _ _ kids => kids
  end.

(** A handle on a node of the document, as JavaScript code holds it: where
    the node is and what kind of node it is. *)
Record Ref := mkRef { refPath : Path; refNodeType : Z }.

Fixpoint nodeAt (n : Node) (p : Path) : option Node :=
  match p with
  | [] => Some n
  | i :: p' =>
      match childNodes n !! i with
      | Some c => nodeAt c p'
      | None => None
      end
  end.

(** First match among siblings, in document order; [idx] is the index of
    the head of [kids] in its parent. *)
Fixpoint firstIn (find : Node -> option Path) (kids : list Node) (idx : nat)
  : option Path :=
  match kids with
  | [] => None
  | c :: rest =>
      match find c with
      | Some p => Some (idx :: p)
      | None => firstIn find rest (S idx)
      end
  end.

(** Pre-order search for the first element whose id is [i]. *)
Fixpoint findById (i : string) (n : Node) : option Path :=
  match n with
  | TextNode _ => None
  | Element _ nid _ kids =>
      if decide (nid = Some i) then Some []
      else firstIn (findById i) kids 0
  end.

(** [document.getElementById(id)]: the element or [null]. *)
Definition getElementById (doc : Node) (i : string) : option Ref :=
  match findById i doc with
  | Some p => Some (mkRef p ELEMENT_NODE)
  | None => None
  end.

(** Some element of the document carries the id [i]. *)
Definition hasElementWithId (doc : Node) (i : string) : Prop :=
  exists p tag st kids, nodeAt doc p = Some (Element tag (Some i) st kids).

(** [parent.appendChild(child)] for the node at [p]; [None] when [p] does
    not lead to an element. *)
Fixpoint appendChildren (n : Node) (p : Path) (new : list Node) : option Node :=
  match n with
  | TextNode _ => None
  | Element tag i st kids =>
      match p with
      | [] => Some (Element tag i st (kids ++ new))
      | k :: p' =>
          match kids !! k with
          | Some c =>
              match appendChildren c p' new with
              | Some c' => Some (Element tag i st (<[k := c']> kids))
              | None => None
              end
          | None => None
          end
      end
  end.

End Dom.

(** ** Rendering as a computation

    A render may consult the document and may throw.  The computation is
    kept as a tree, so that whether a render queries the document at all can
    be read off it. *)

Inductive Render (A : Type) :=
| Ret (a : A)
| Throw (message : string)
| GetElementById (elementId : string) (k : option Dom.Ref -> Render A).

Arguments Ret {A} a.
Arguments Throw {A} message.
Arguments GetElementById {A} elementId k.

Fixpoint bindRender {A B} (f : A -> Render B) (m : Render A) : Render B :=
  match m with
  | Ret a => f a
  | Throw msg => Throw msg
  | GetElementById i k => GetElementById i (fun r => bindRender f (k r))
  end.

#[global] Instance Render_ret : MRet Render := @Ret.
#[global] Instance Render_bind : MBind Render := @bindRender.

(** How a render ends: it returns a value or an exception escapes it. *)
Inductive Completion (A : Type) :=
| Returned (a : A)
| Thrown (message : string).

Arguments Returned {A} a.
Arguments Thrown {A} message.

(** The result of a render against [doc], with the ids it looked up, in
    order. *)
Record Ran (A : Type) := mkRan { outcome : Completion A; queries : list string }.

Arguments mkRan {A} outcome queries.
Arguments outcome {A} r.
Arguments queries {A} r.

Fixpoint run {A} (doc : Dom.Node) (m : Render A) : Ran A :=
  match m with
  | Ret a => mkRan (Returned a) []
  | Throw msg => mkRan (Thrown msg) []
  | GetElementById i k =>
      let r := run doc (k (Dom.getElementById doc i)) in
      mkRan (outcome r) (i :: queries r)
  end.

(** ** React nodes and click dispatch *)

Module React.

(** The synthetic click event: the React node it was dispatched on and the
    flag that [stopPropagation] raises. *)
Record SyntheticEvent := mkEvent {
  target : list nat;
  propagationStopped : bool
}.

Definition stopPropagation (e : SyntheticEvent) : SyntheticEvent :=
  mkEvent (target e) true.

(** JavaScript values that reach a callback as arguments. *)
Inductive JsValue :=
| VUndefined
| VEvent (e : SyntheticEvent).

Section Nodes.

Context {W : Type}.

(** A function value received as a prop: it is called with a list of
    arguments and acts on the caller's world [W].  A callback of this kind
    reads the event it is handed but does not mark it; what is proved of a
    callback below is proved of callbacks that leave propagation alone. *)
Definition Callback := list JsValue -> W -> W.

(** An [onClick] listener as React runs it: it is handed the event, may
    change the world and may mark the event. *)
Definition Listener := SyntheticEvent -> W -> SyntheticEvent * W.

(** [onClick={f}]: React calls the function it was given with the event as
    its argument. *)
Definition listenerOf (f : Callback) : Listener :=
  fun e w => (e, f [VEvent e] w).

Inductive ReactNode :=
| RNull
| RText (text : string)
| RElement (type : string) (style : Dom.Style) (onClick : option Listener)
           (children : list ReactNode)
| RArray (items : list ReactNode)
| RPortal (children : ReactNode) (container : Dom.Ref).

Definition isValidContainer (container : Dom.Ref) : bool :=
  bool_decide (Dom.refNodeType container = Dom.ELEMENT_NODE)
  || bool_decide (Dom.refNodeType container = Dom.DOCUMENT_NODE)
  || bool_decide (Dom.refNodeType container = Dom.DOCUMENT_FRAGMENT_NODE).

(** [createPortal(children, container)] of react-dom. *)
Definition createPortal (children : ReactNode) (container : Dom.Ref)
  : Render ReactNode :=
  if isValidContainer container then Ret (RPortal children container)
  else Throw "Target container is not a DOM element.".

(** *** The React tree *)

Definition childAt (r : ReactNode) (i : nat) : option ReactNode :=
  match r with
  | RElement _ _ _ kids => kids !! i
  | RArray items => items !! i
  | RPortal c _ => match i with 0 => Some c | S _ => None end
  | RNull | RText _ => None
  end.

Fixpoint subtree (r : ReactNode) (p : list nat) : option ReactNode :=
  match p with
  | [] => Some r
  | i :: p' =>
      match childAt r i with
      | Some c => subtree c p'
      | None => None
      end
  end.

Definition ownListener (r : ReactNode) (here : list nat)
  : list (list nat * Listener) :=
  match r with
  | RElement _ _ (Some l) _ => [(here, l)]
  | _ => []
  end.

(** The listeners a click on the node at [p] passes, innermost first, each
    with the position of its element; [here] is the position of [r]. *)
Fixpoint listenersTo (r : ReactNode) (here p : list nat)
  : option (list (list nat * Listener)) :=
  match p with
  | [] => Some (ownListener r here)
  | i :: p' =>
      match childAt r i with
      | Some c =>
          match listenersTo c (here ++ [i]) p' with
          | Some inner => Some (inner ++ ownListener r here)
          | None => None
          end
      | None => None
      end
  end.

(** What a dispatch leaves behind: the event, the world, and the positions
    of the elements whose listener ran, in the order they ran. *)
Record Dispatched := mkDispatched {
  finalEvent : SyntheticEvent;
  finalWorld : W;
  fired : list (list nat)
}.

Fixpoint runListeners (ls : list (list nat * Listener)) (e : SyntheticEvent)
  (w : W) : Dispatched :=
  match ls with
  | [] => mkDispatched e w []
  | (at_, l) :: rest =>
      if propagationStopped e then mkDispatched e w []
      else
        let '(e', w') := l e w in
        let d := runListeners rest e' w' in
        mkDispatched (finalEvent d) (finalWorld d) (at_ :: fired d)
  end.

Definition clickEvent (p : list nat) : SyntheticEvent := mkEvent p false.

(** A click on the node at [p] of the tree [r]; [None] when there is no
    such node.  Any node of the tree may be named as the target: a click on
    a text counts as a click inside the element around it. *)
Definition dispatchClick (r : ReactNode) (p : list nat) (w : W)
  : option Dispatched :=
  match listenersTo r [] p with
  | Some ls => Some (runListeners ls (clickEvent p) w)
  | None => None
  end.

(** *** Host output *)

(** The DOM nodes a React node puts where it is rendered.  A portal puts
    nothing there, and neither does the empty string. *)
Fixpoint hostNodes (r : ReactNode) : list Dom.Node :=
  match r with
  | RNull => []
  | RText s => if decide (s = "") then [] else [Dom.TextNode s]
  | RElement tag st _ kids =>
      [Dom.Element tag None st (flat_map hostNodes kids)]
  | RArray items => flat_map hostNodes items
  | RPortal _ _ => []
  end.

(** The portals of a React node: each container with the DOM nodes that are
    appended to it. *)
Fixpoint portalMounts (r : ReactNode) : list (Dom.Ref * list Dom.Node) :=
  match r with
  | RNull | RText _ => []
  | RElement _ _ _ kids => flat_map portalMounts kids
  | RArray items => flat_map portalMounts items
  | RPortal c container => (container, hostNodes c) :: portalMounts c
  end.

End Nodes.

Arguments ReactNode W : clear implicits.
Arguments Callback W : clear implicits.
Arguments Listener W : clear implicits.
Arguments Dispatched W : clear implicits.

End React.

Import Dom React.

(** [document.getElementById(id)] inside a render. *)
Definition getElementById (i : string) : Render (option Dom.Ref) :=
  GetElementById i Ret.

(** ** components/modal *)

Record IModalProps (W : Type) := mkModalProps {
  isOpen : bool;
  onClose : Callback W;
  children : ReactNode W
}.

Arguments mkModalProps {W} isOpen onClose children.
Arguments isOpen {W} i.
Arguments onClose {W} i.
Arguments children {W} i.

Definition backdropStyle : Style :=
  [ ("position", CssStr "fixed");
    ("top", CssNum 0);
    ("left", CssNum 0);
    ("width", CssStr "100vw");
    ("height", CssStr "100vh");
    ("backgroundColor", CssStr "rgba(0,0,0,0.4)");
    ("display", CssStr "flex");
    ("alignItems", CssStr "center");
    ("justifyContent", CssStr "center");
    ("zIndex", CssNum 1000) ].

Definition panelStyle : Style :=
  [ ("background", CssStr "white");
    ("borderRadius", CssStr "12px");
    ("padding", CssStr "20px");
    ("minWidth", CssStr "300px");
    ("boxShadow", CssStr "0 4px 10px rgba(0,0,0,0.2)") ].

(** The panel's listener, [(e) => e.stopPropagation()]. *)
Definition panelOnClick {W} : Listener W :=
  fun e w => (stopPropagation e, w).

(** The JSX handed to [createPortal]: the backdrop [div] with the panel
    [div] in it. *)
Definition modalBackdrop {W} (onClose : Callback W) (children : ReactNode W)
  : ReactNode W :=
  RElement "div" backdropStyle (Some (listenerOf onClose))
    [ RElement "div" panelStyle (Some panelOnClick) [children] ].

Definition Modal {W} (props : IModalProps W) : Render (ReactNode W) :=
  if negb (isOpen props) then mret RNull
  else
    modalRoot ← getElementById "root";
    match modalRoot with
    | None => mret RNull
    | Some modalRoot =>
        createPortal (modalBackdrop (onClose props) (children props)) modalRoot
    end.

(** Positions inside what [Modal] returns: the portal is the root, the
    backdrop its child, the panel the backdrop's child, the payload the
    panel's child. *)
Definition backdropPath : list nat := [0].
Definition panelPath : list nat := [0; 0].
Definition contentPath : list nat := [0; 0; 0].

(** ** App.tsx *)

(** Updates enqueued by [setIsOpen] during an event; React processes the
    queue when the listeners have run. *)
Definition UpdateQueue := list bool.

(** [useState(initialState)]: the value kept from the previous render, or
    [initialState] on the first one, and the setter. *)
Definition useState (initialState : bool) (memoizedState : option bool)
  : bool * (bool -> UpdateQueue -> UpdateQueue) :=
  (default initialState memoizedState, fun v q => q ++ [v]).

(** Every update of this program is a plain value, so each one replaces the
    state. *)
Definition processUpdateQueue (s : bool) (q : UpdateQueue) : bool :=
  foldl (fun _ v => v) s q.

Definition appStyle : Style :=
  [ ("textAlign", CssStr "center"); ("marginTop", CssStr "100px") ].

Definition openButtonStyle : Style :=
  [ ("padding", CssStr "10px 20px");
    ("borderRadius", CssStr "8px");
    ("border", CssStr "none");
    ("backgroundColor", CssStr "#007bff");
    ("color", CssStr "white");
    ("cursor", CssStr "pointer") ].

(** The one hook call of [App], [useState<boolean>(false)]. *)
Definition App_useState (memoizedState : option bool)
  : bool * (bool -> UpdateQueue -> UpdateQueue) :=
  useState false memoizedState.

Definition App (memoizedState : option bool) : Render (ReactNode UpdateQueue) :=
  let '(isOpen, setIsOpen) := App_useState memoizedState in
  modal ← Modal
    {| isOpen := isOpen;
       onClose := fun _ => setIsOpen false;
       children :=
         RArray
           [ RElement "h2" [] None [RText "Hello from the Portal 👋"];
             RElement "p" [] None
               [RText "This content is rendered outside the main DOM tree!"];
             RElement "button" [] (Some (fun e q => (e, setIsOpen false q)))
               [RText "Close"] ] |};
  mret
    (RElement "div" appStyle None
       [ RElement "h1" [] None [RText "React Portal Example"];
         RElement "p" [] None
           [RText "This demonstrates how to render modals outside the root element."];
         RElement "button" openButtonStyle
           (Some (fun e q => (e, setIsOpen true q)))
           [RText "Open Modal"];
         modal ]).

(** Positions inside what [App] returns. *)
Definition triggerPath : list nat := [2].
Definition appModalPath : list nat := [3].
Definition appBackdropPath : list nat := appModalPath ++ backdropPath.
Definition appPanelPath : list nat := appModalPath ++ panelPath.
Definition closeButtonPath : list nat := appModalPath ++ contentPath ++ [2].

(** The flag when the shell is created: what the hook call of [App] gives
    on the first render. *)
Definition initialFlag : bool := (App_useState None).1.

(** One click on the rendered shell: render with the current flag, dispatch
    the click on the node at [p], and return the updates the listeners
    enqueued. *)
Definition clickUpdates (doc : Node) (flag : bool) (p : list nat)
  : option UpdateQueue :=
  match outcome (run doc (App (Some flag))) with
  | Returned tree =>
      match dispatchClick tree p [] with
      | Some d => Some (finalWorld d)
      | None => None
      end
  | Thrown _ => None
  end.

(** The flag after the click. *)
Definition click (doc : Node) (flag : bool) (p : list nat) : option bool :=
  match clickUpdates doc flag p with
  | Some q => Some (processUpdateQueue flag q)
  | None => None
  end.

(** Two small documents: the usual page, and one with no anchor. *)
Definition pageWithRoot : Node :=
  Element "html" None []
    [ Element "head" None [] [];
      Element "body" None [] [ Element "div" (Some "root") [] [] ] ].

Definition pageWithoutRoot : Node :=
  Element "html" None []
    [ Element "head" None [] [];
      Element "body" None [] [ Element "div" (Some "app") [] [] ] ].

(** [style[name]] of an inline style. *)
Fixpoint styleGet (st : Style) (name : string) : option CssValue :=
  match st with
  | [] => None
  | (k, v) :: rest => if decide (k = name) then Some v else styleGet rest name
  end.

(** The DOM of the backdrop with the panel and the payload's nodes in it. *)
Definition backdropDom (payload : list Node) : Node :=
  Element "div" None backdropStyle [Element "div" None panelStyle payload].

(** A callback that records the argument list of each call it receives. *)
Definition recordCall : Callback (list (list JsValue)) :=
  fun args calls => calls ++ [args].




(** A page that has more on it and the anchor at the same place. *)
Definition pageWithRootAndFooter : Node :=
  Element "html" None []
    [ Element "head" None [] [];
      Element "body" None []
        [ Element "div" (Some "root") [] [];
          Element "footer" None [] [TextNode "footer"] ] ].

(** The event loop of the shell: each click is dispatched on the render for
    the current flag, the queue is processed, and the next click meets the
    render for the new flag.  [None] when some click names a node that is
    not rendered at that moment. *)
Fixpoint clicks (doc : Node) (flag : bool) (ps : list (list nat)) : option bool :=
  match ps with
  | [] => Some flag
  | p :: rest =>
      match click doc flag p with
      | Some flag' => clicks doc flag' rest
      | None => None
      end
  end.

(** Clicks dispatched one after the other on one rendered tree, each with a
    fresh event, the world carried from one to the next. *)
Fixpoint dispatchAll {W} (r : ReactNode W) (ps : list (list nat)) (w : W)
  : option W :=
  match ps with
  | [] => Some w
  | p :: rest =>
      match dispatchClick r p w with
      | Some d => dispatchAll r rest (finalWorld d)
      | None => None
      end
  end.

(** Follow a click path down a tree that is known: one case per child, and
    no case where there is no such child. *)
Ltac descend H p :=
  let k := fresh "k" in
  destruct p as [| k p]; simpl in H;
  [ | do 4 (try (destruct k as [| k]; simpl in H)); try discriminate H ].

Ltac not_prefix := let k := fresh in intros [k ?]; discriminate.

Ltac classify :=
  first
    [ left; split; [reflexivity | split; [reflexivity | by eexists]]
    | right; left; split; [reflexivity | split; [reflexivity |]];
      first [ by left | right; by eexists ]
    | right; right; split; [reflexivity |];
      split; [not_prefix | split; [discriminate | not_prefix]] ].

(** * Properties *)

(** ** The document search *)

Section DomFacts.

Lemma Node_nested_ind (P : Node -> Prop) :
  (forall s, P (TextNode s)) ->
  (forall tag i st kids, Forall P kids -> P (Element tag i st kids)) ->
  forall n, P n.
Proof.
  intros Htext Helem. fix IH 1.
  intros [s | tag i st kids]; [apply Htext | apply Helem].
  induction kids as [| c kids IHkids]; constructor; [apply IH | exact IHkids].
Qed.

Lemma firstIn_Some find kids idx p :
  firstIn find kids idx = Some p ->
  exists j c q, p = (idx + j) :: q /\ kids !! j = Some c /\ find c = Some q.
Proof.
  revert idx. induction kids as [| c kids IH]; intros idx H; [discriminate |].
  simpl in H. destruct (find c) as [q |] eqn:Hc.
  - injection H as <-. exists 0, c, q. rewrite Nat.add_0_r. auto.
  - destruct (IH _ H) as (j & c' & q & -> & Hj & Hq).
    exists (S j), c', q. split; [f_equal; lia | auto].
Qed.

Lemma firstIn_is_Some find kids idx j c :
  kids !! j = Some c -> is_Some (find c) -> is_Some (firstIn find kids idx).
Proof.
  revert idx j. induction kids as [| c' kids IH]; intros idx j Hj Hc.
  - discriminate.
  - simpl. destruct (find c') as [q |] eqn:Hc'; [eauto |].
    destruct j as [| j]; simpl in Hj.
    + injection Hj as ->. rewrite Hc' in Hc. by destruct Hc.
    + eapply IH; eauto.
Qed.

(** What [findById] returns leads to an element that carries the id. *)
Lemma findById_sound i n p :
  findById i n = Some p ->
  exists tag st kids, nodeAt n p = Some (Element tag (Some i) st kids).
Proof.
  revert p. induction n as [s | tag nid st kids IH] using Node_nested_ind;
    intros p H; [discriminate |].
  simpl in H. destruct (decide (nid = Some i)) as [-> | Hne].
  - injection H as <-. simpl. eauto.
  - destruct (firstIn_Some _ _ _ _ H) as (j & c & q & -> & Hj & Hq).
    simpl. rewrite Hj. rewrite Forall_lookup in IH. eapply IH; eauto.
Qed.

(** An element that carries the id is found, wherever it is. *)
Lemma findById_complete i n :
  hasElementWithId n i -> is_Some (findById i n).
Proof.
  intros (p & tag & st & kids & H). revert p H.
  induction n as [s | tag' nid st' kids' IH] using Node_nested_ind; intros p H.
  - destruct p as [| [| k] p]; discriminate.
  - simpl. destruct (decide (nid = Some i)) as [_ | Hne]; [eauto |].
    destruct p as [| k p]; simpl in H.
    + injection H as _ -> _ _. by destruct Hne.
    + destruct (kids' !! k) as [c |] eqn:Hk; [| discriminate].
      rewrite Forall_lookup in IH.
      eapply firstIn_is_Some; [exact Hk | eapply IH; eauto].
Qed.

Lemma getElementById_is_Some doc i :
  is_Some (Dom.getElementById doc i) <-> hasElementWithId doc i.
Proof.
  unfold Dom.getElementById. split.
  - destruct (findById i doc) as [p |] eqn:Hp; [| by intros [? ?]].
    intros _. destruct (findById_sound _ _ _ Hp) as (tag & st & kids & H).
    by exists p, tag, st, kids.
  - intros H. destruct (findById_complete _ _ H) as [p ->]. eauto.
Qed.

Lemma getElementById_None doc i :
  Dom.getElementById doc i = None <-> ~ hasElementWithId doc i.
Proof.
  rewrite <- getElementById_is_Some, eq_None_not_Some. tauto.
Qed.

(** The handle [getElementById] returns is a handle on an element of the
    document. *)
Lemma getElementById_element doc i r :
  Dom.getElementById doc i = Some r ->
  refNodeType r = ELEMENT_NODE /\
  exists tag st kids, nodeAt doc (refPath r) = Some (Element tag (Some i) st kids).
Proof.
  unfold Dom.getElementById. destruct (findById i doc) as [p |] eqn:Hp; [| discriminate].
  intros [= <-]. split; [reflexivity | by apply findById_sound].
Qed.

(** Appending below an element of the document succeeds and extends that
    element's children at the end. *)
Lemma appendChildren_nodeAt doc p tag i st kids new :
  nodeAt doc p = Some (Element tag i st kids) ->
  exists doc', appendChildren doc p new = Some doc' /\
               nodeAt doc' p = Some (Element tag i st (kids ++ new)).
Proof.
  revert doc. induction p as [| k p IH]; intros doc H.
  - simpl in H. injection H as ->. simpl. eauto.
  - simpl in H. destruct doc as [s | tag' i' st' kids']; simpl in H.
    + destruct k; discriminate.
    + destruct (kids' !! k) as [c |] eqn:Hk; [| discriminate].
      destruct (IH _ H) as (c' & Hc' & Hat).
      simpl. rewrite Hk, Hc'. eexists; split; [reflexivity |].
      simpl. rewrite list_lookup_insert_eq; [exact Hat |].
      by eapply lookup_lt_Some.
Qed.

End DomFacts.

(** ** Click dispatch *)

Section DispatchFacts.

Context {W : Type}.
Implicit Types (r : ReactNode W) (ls : list (list nat * Listener W)).
Implicit Types (e : SyntheticEvent) (w : W).

(** Once propagation is stopped no listener runs. *)
Lemma runListeners_stopped ls e w :
  propagationStopped e = true -> runListeners ls e w = mkDispatched e w [].
Proof. intros H. destruct ls as [| [a l] rest]; simpl; [| rewrite H]; reflexivity. Qed.

(** Running a list of listeners is running its front part and then, from
    where that ended, the rest. *)
Lemma runListeners_app ls1 ls2 e w :
  runListeners (ls1 ++ ls2) e w =
  let d1 := runListeners ls1 e w in
  let d2 := runListeners ls2 (finalEvent d1) (finalWorld d1) in
  mkDispatched (finalEvent d2) (finalWorld d2) (fired d1 ++ fired d2).
Proof.
  revert e w. induction ls1 as [| [a l] rest IH]; intros e w; simpl.
  - by destruct (runListeners ls2 e w).
  - destruct (propagationStopped e) eqn:He; simpl.
    + by rewrite runListeners_stopped.
    + destruct (l e w) as [e' w']. by rewrite IH.
Qed.

(** Only listeners of the list run, in the order of the list. *)
Lemma fired_prefix ls e w : fired (runListeners ls e w) `prefix_of` ls.*1.
Proof.
  revert e w. induction ls as [| [a l] rest IH]; intros e w; simpl.
  - done.
  - destruct (propagationStopped e); simpl; [apply prefix_nil |].
    destruct (l e w) as [e' w']. simpl. apply prefix_cons, IH.
Qed.

(** The listeners on the way to a node sit at or below where the walk
    started. *)
Lemma listenersTo_positions r here p ls :
  listenersTo r here p = Some ls ->
  Forall (fun a => here `prefix_of` a) ls.*1.
Proof.
  revert r here ls. induction p as [| i p IH]; intros r here ls H; simpl in H.
  - injection H as <-. destruct r as [| | ? ? [l |] ? | |]; simpl;
      repeat first [apply Forall_nil_2 | apply Forall_cons_2; [reflexivity |]].
  - destruct (childAt r i) as [c |]; [| discriminate].
    destruct (listenersTo c (here ++ [i]) p) as [inner |] eqn:Hin; [| discriminate].
    injection H as <-. rewrite fmap_app, Forall_app. split.
    + eapply Forall_impl; [eapply IH; eauto |].
      intros a Ha. etrans; [apply prefix_app_r; reflexivity | exact Ha].
    + destruct r as [| | ? ? [l |] ? | |]; simpl;
      repeat first [apply Forall_nil_2 | apply Forall_cons_2; [reflexivity |]].
Qed.

End DispatchFacts.

(** ** The overlay component *)

Section ModalFacts.

Context {W : Type}.
Implicit Types (props : IModalProps W) (doc : Node).

Lemma run_Modal_closed props doc :
  isOpen props = false -> run doc (Modal props) = mkRan (Returned RNull) [].
Proof. intros H. unfold Modal. by rewrite H. Qed.

Lemma run_Modal_open props doc :
  isOpen props = true ->
  run doc (Modal props) =
  mkRan
    (Returned
       match Dom.getElementById doc "root" with
       | Some anchor =>
           RPortal (modalBackdrop (onClose props) (children props)) anchor
       | None => RNull
       end)
    ["root"].
Proof.
  intros H. unfold Modal. rewrite H. simpl.
  destruct (Dom.getElementById doc "root") as [anchor |] eqn:Hroot; [| reflexivity].
  apply getElementById_element in Hroot as [Htype _].
  unfold createPortal, isValidContainer. rewrite Htype. reflexivity.
Qed.

(** A render of the overlay always returns: the portal when the flag is set
    and the anchor is there, [null] otherwise. *)
Lemma outcome_Modal props doc :
  outcome (run doc (Modal props)) =
  Returned
    match isOpen props, Dom.getElementById doc "root" with
    | true, Some anchor =>
        RPortal (modalBackdrop (onClose props) (children props)) anchor
    | _, _ => RNull
    end.
Proof.
  destruct (isOpen props) eqn:H.
  - by rewrite run_Modal_open.
  - by rewrite run_Modal_closed.
Qed.

(** The listeners a click inside the payload passes: the payload's own,
    then the panel's, then the backdrop's. *)
Lemma listenersTo_portal_content props anchor p :
  listenersTo (RPortal (modalBackdrop (onClose props) (children props)) anchor)
    [] (contentPath ++ p)
  = match listenersTo (children props) contentPath p with
    | Some inner =>
        Some (inner ++ [(panelPath, panelOnClick);
                        (backdropPath, listenerOf (onClose props))])
    | None => None
    end.
Proof.
  unfold contentPath, panelPath, backdropPath. simpl.
  destruct (listenersTo (children props) [0; 0; 0] p) as [inner |];
    [| reflexivity].
  by rewrite <- !app_assoc.
Qed.

(** From the panel outwards: the panel's listener stops the event, the
    backdrop's listener does not run. *)
Lemma runListeners_panel_backdrop props e (w : W) :
  let d := runListeners [(panelPath, panelOnClick);
                         (backdropPath, listenerOf (onClose props))] e w in
  finalWorld d = w /\ (backdropPath ∉ fired d) /\
  propagationStopped (finalEvent d) = true.
Proof.
  simpl. destruct (propagationStopped e) eqn:He; simpl.
  - repeat split; [apply not_elem_of_nil | done].
  - repeat split. rewrite list_elem_of_singleton. discriminate.
Qed.

End ModalFacts.

(** ** The overlay component: what it renders and how it handles clicks *)

(** C1. For every [isOpen], [onClose] and payload, and every document, the
    render of [Modal] returns.  When [isOpen] is true and the document has
    an element with id [root], it returns the portal that mounts, into the
    element the lookup gives, the backdrop: an element as wide and as high
    as the viewport with a semi-transparent black fill, holding the white
    panel with the payload's nodes.  In every other case it returns [null],
    which puts no node anywhere.  So the render returns something other
    than [null] exactly when [isOpen] is true and the anchor exists. *)
Theorem Modal_output_iff {W} (props : IModalProps W) (doc : Node) :
  exists r,
    outcome (run doc (Modal props)) = Returned r /\
    (r <> RNull <->
     isOpen props = true /\ hasElementWithId doc "root") /\
    (isOpen props = true /\ hasElementWithId doc "root" ->
     exists anchor,
       Dom.getElementById doc "root" = Some anchor /\
       r = RPortal (modalBackdrop (onClose props) (children props)) anchor /\
       portalMounts r
       = (anchor, [backdropDom (hostNodes (children props))])
           :: portalMounts (children props)) /\
    (~ (isOpen props = true /\ hasElementWithId doc "root") ->
     r = RNull /\ hostNodes r = [] /\ portalMounts r = []) /\
    styleGet backdropStyle "width" = Some (CssStr "100vw") /\
    styleGet backdropStyle "height" = Some (CssStr "100vh") /\
    styleGet backdropStyle "backgroundColor" = Some (CssStr "rgba(0,0,0,0.4)") /\
    styleGet panelStyle "background" = Some (CssStr "white").
Proof.
  rewrite outcome_Modal. eexists. split; [reflexivity |].
  destruct (isOpen props).
  - destruct (Dom.getElementById doc "root") as [anchor |] eqn:Hroot.
    + assert (hasElementWithId doc "root") as Hhas
        by (apply getElementById_is_Some; eauto).
      split; [split; [auto | discriminate] |].
      split; [| split; [tauto | repeat split]].
      intros _. exists anchor. split; [reflexivity |].
      split; [reflexivity |]. simpl. by rewrite !app_nil_r.
    + apply getElementById_None in Hroot.
      split; [split; [done | tauto] |].
      split; [tauto | split; [done | repeat split]].
  - split; [split; [done | intros [? _]; discriminate] |].
    split; [intros [? _]; discriminate | split; [done | repeat split]].
Qed.

Lemma Modal_output_iff_witness :
  exists r,
    outcome (run pageWithRoot
               (Modal (mkModalProps true recordCall (RText "payload"))))
    = Returned r /\
    portalMounts r
    = [(mkRef [1; 0] ELEMENT_NODE, [backdropDom [TextNode "payload"]])].
Proof.
  destruct (Modal_output_iff (mkModalProps true recordCall (RText "payload"))
              pageWithRoot) as (r & Hr & _ & Hopen & _).
  exists r. split; [exact Hr |].
  destruct Hopen as (anchor & Hanchor & _ & Hmounts).
  - split; [reflexivity |].
    apply getElementById_is_Some. vm_compute. eauto.
  - injection Hanchor as <-. exact Hmounts.
Defined.

(** C2 as amended. While the overlay is shown, a click that lands on the
    content panel or on anything inside it never runs the backdrop's
    listener, so the component itself does not call [onClose]: the backdrop
    is not among the elements whose listener ran, a click on the panel
    itself leaves the world as it was, and a click inside the payload
    leaves the world as the payload's own listeners leave it (they run, and
    what they call is theirs).  The walk ends at the panel with propagation
    stopped. *)
Theorem panel_click_never_calls_onClose {W} (props : IModalProps W)
    (doc : Node) (tree : ReactNode W) (p : list nat) (w : W)
    (d : Dispatched W) :
  outcome (run doc (Modal props)) = Returned tree ->
  dispatchClick tree (panelPath ++ p) w = Some d ->
  (backdropPath ∉ fired d) /\
  propagationStopped (finalEvent d) = true /\
  (p = [] -> finalWorld d = w /\ fired d = [panelPath]) /\
  (forall p', p = 0 :: p' ->
     exists inner,
       listenersTo (children props) contentPath p' = Some inner /\
       finalWorld d
       = finalWorld (runListeners inner (clickEvent (panelPath ++ p)) w)).
Proof.
  rewrite outcome_Modal. intros [= <-] Hd.
  destruct (isOpen props); [| discriminate].
  destruct (Dom.getElementById doc "root") as [anchor |]; [| discriminate].
  destruct p as [| i p'].
  - (* the panel itself *)
    injection Hd as <-. simpl.
    repeat split; [| discriminate].
    rewrite list_elem_of_singleton. discriminate.
  - (* inside the panel: only the payload sits there *)
    destruct i as [| i]; [| discriminate].
    unfold dispatchClick in Hd.
    change (panelPath ++ 0 :: p') with (contentPath ++ p') in *.
    rewrite listenersTo_portal_content in Hd.
    destruct (listenersTo (children props) contentPath p') as [inner |] eqn:Hin;
      [| discriminate].
    injection Hd as <-. rewrite runListeners_app. cbv zeta.
    set (d1 := runListeners inner (clickEvent (contentPath ++ p')) w).
    destruct (runListeners_panel_backdrop props (finalEvent d1) (finalWorld d1))
      as (Hw & Hfired & Hstop).
    simpl finalWorld. simpl finalEvent. simpl fired.
    split; [| split; [exact Hstop | split; [discriminate |]]].
    + rewrite elem_of_app. intros [Hin1 | Hin2]; [| by apply Hfired].
      (* a payload listener sits below the payload's position *)
      pose proof (listenersTo_positions _ _ _ _ Hin) as Hpos.
      pose proof (fired_prefix inner (clickEvent (contentPath ++ p')) w) as Hpre.
      fold d1 in Hpre. destruct Hpre as [k Hk].
      rewrite Hk, Forall_app in Hpos. destruct Hpos as [Hpos _].
      rewrite Forall_forall in Hpos. destruct (Hpos _ Hin1) as [k' Hk'].
      discriminate.
    + intros p'' [= <-]. exists inner. split; [exact Hin | exact Hw].
Qed.

Lemma panel_click_never_calls_onClose_witness :
  exists tree d,
    outcome (run pageWithRoot
               (Modal (mkModalProps true recordCall (RText "payload"))))
    = Returned tree /\
    dispatchClick tree (panelPath ++ []) [] = Some d /\
    (backdropPath ∉ fired d) /\ finalWorld d = [].
Proof.
  eexists. eexists. split; [reflexivity |]. split; [reflexivity |].
  pose proof (panel_click_never_calls_onClose
                (mkModalProps true recordCall (RText "payload"))
                pageWithRoot _ [] [] _ eq_refl eq_refl)
    as (Hfired & _ & Hpanel & _).
  split; [exact Hfired | exact (proj1 (Hpanel eq_refl))].
Defined.

(** C2 as stated fails: a click that lands inside the content panel can
    invoke [onClose].  The payload is the caller's, and when it holds a
    button whose own listener is the very function passed as [onClose], a
    click on that button calls it once, although the event never reaches
    the backdrop. *)
Lemma payload_listener_can_call_onClose :
  let props :=
    mkModalProps true recordCall
      (RElement "button" [] (Some (listenerOf recordCall)) [RText "Dismiss"]) in
  exists tree d,
    outcome (run pageWithRoot (Modal props)) = Returned tree /\
    dispatchClick tree (panelPath ++ [0]) [] = Some d /\
    (backdropPath ∉ fired d) /\
    finalWorld d = recordCall [VEvent (clickEvent (panelPath ++ [0]))] [] /\
    finalWorld d <> [].
Proof.
  eexists. eexists. split; [reflexivity |]. split; [reflexivity |].
  split; [| split; [reflexivity | discriminate]].
  simpl. rewrite !elem_of_cons, elem_of_nil.
  intros [H | [H | []]]; discriminate H.
Qed.

(** C3 as amended. While the overlay is shown, a click on the backdrop runs
    exactly one listener, the backdrop's, and that listener is [onClose]
    itself: [onClose] is called once, and it is handed the click event as
    its one argument. *)
Theorem backdrop_click_calls_onClose_once {W} (props : IModalProps W)
    (doc : Node) (tree : ReactNode W) (w : W) :
  outcome (run doc (Modal props)) = Returned tree ->
  tree <> RNull ->
  dispatchClick tree backdropPath w =
  Some {| finalEvent := clickEvent backdropPath;
          finalWorld := onClose props [VEvent (clickEvent backdropPath)] w;
          fired := [backdropPath] |}.
Proof.
  rewrite outcome_Modal. intros [= <-] Hshown.
  destruct (isOpen props); [| done].
  destruct (Dom.getElementById doc "root") as [anchor |]; [| done].
  reflexivity.
Qed.

Lemma backdrop_click_calls_onClose_once_witness :
  exists tree d,
    outcome (run pageWithRoot
               (Modal (mkModalProps true recordCall (RText "payload"))))
    = Returned tree /\
    dispatchClick tree backdropPath [] = Some d /\
    finalWorld d = [[VEvent (clickEvent backdropPath)]].
Proof.
  eexists. eexists. split; [reflexivity |]. split.
  - apply (backdrop_click_calls_onClose_once
             (mkModalProps true recordCall (RText "payload"))
             pageWithRoot _ [] eq_refl).
    discriminate.
  - reflexivity.
Defined.

(** C3 as stated fails: the call the backdrop click makes is not a call
    with zero arguments.  With a callback that records its argument lists,
    one click leaves the record of a call with one argument, the event, and
    not the record [[[]]] that a call with no argument leaves. *)
Lemma backdrop_click_passes_the_event :
  exists tree d,
    outcome (run pageWithRoot
               (Modal (mkModalProps true recordCall (RText "payload"))))
    = Returned tree /\
    dispatchClick tree backdropPath [] = Some d /\
    finalWorld d = recordCall [VEvent (clickEvent backdropPath)] [] /\
    finalWorld d <> recordCall [] [].
Proof.
  eexists. eexists. split; [reflexivity |]. split; [reflexivity |].
  split; [reflexivity | discriminate].
Qed.

(** C4. When the document has no element with id [root], the render of
    [Modal] returns [null] whatever [isOpen] is.  The render returns
    normally, so nothing is thrown, and the caller receives the same value
    as from a closed overlay. *)
Theorem Modal_without_anchor_renders_nothing {W} (props : IModalProps W)
    (doc : Node) :
  ~ hasElementWithId doc "root" ->
  outcome (run doc (Modal props)) = Returned RNull /\
  outcome (run doc (Modal props))
  = outcome (run doc (Modal (mkModalProps false (onClose props) (children props)))).
Proof.
  intros Habsent. apply getElementById_None in Habsent.
  rewrite !outcome_Modal, Habsent. simpl. by destruct (isOpen props).
Qed.

Lemma Modal_without_anchor_renders_nothing_witness :
  outcome (run pageWithoutRoot
             (Modal (mkModalProps true recordCall (RText "payload"))))
  = Returned RNull.
Proof.
  apply (Modal_without_anchor_renders_nothing
           (mkModalProps true recordCall (RText "payload")) pageWithoutRoot).
  apply getElementById_None. reflexivity.
Defined.

(** C6 as stated fails: the output is not a function of [isOpen], [onClose]
    and the payload alone.  The same props give the portal against a page
    with the anchor and [null] against a page without it. *)
Lemma Modal_output_depends_on_the_document :
  let props := mkModalProps true recordCall (RText "payload") in
  outcome (run pageWithRoot (Modal props))
  <> outcome (run pageWithoutRoot (Modal props)).
Proof. discriminate. Qed.

(** C6 as amended. [Modal] keeps nothing between renders (its render takes
    the props and reads the document, nothing else), and its output is a
    function of the props and of what the lookup of [root] gives: two
    renders with equal [isOpen], [onClose] and payload, against documents
    in which that lookup gives the same result, produce equal output.  When
    [isOpen] is false the documents need not agree at all. *)
Theorem Modal_output_determined {W} (props1 props2 : IModalProps W)
    (doc1 doc2 : Node) :
  isOpen props1 = isOpen props2 ->
  onClose props1 = onClose props2 ->
  children props1 = children props2 ->
  Dom.getElementById doc1 "root" = Dom.getElementById doc2 "root"
  \/ isOpen props1 = false ->
  outcome (run doc1 (Modal props1)) = outcome (run doc2 (Modal props2)).
Proof.
  intros Hopen Hclose Hkids Hdoc. rewrite !outcome_Modal.
  rewrite <- Hopen, <- Hclose, <- Hkids.
  destruct Hdoc as [-> | ->]; reflexivity.
Qed.

Lemma Modal_output_determined_witness :
  outcome (run pageWithRoot
             (Modal (mkModalProps true recordCall (RText "payload"))))
  = outcome (run pageWithRootAndFooter
               (Modal (mkModalProps true recordCall (RText "payload")))).
Proof.
  apply (Modal_output_determined
           (mkModalProps true recordCall (RText "payload"))
           (mkModalProps true recordCall (RText "payload"))
           pageWithRoot pageWithRootAndFooter);
    try reflexivity.
  left. reflexivity.
Defined.

(** C7. When [isOpen] is true and the lookup of [root] gives the anchor,
    [Modal] returns a portal into the anchor.  Nothing is put where the
    component itself is rendered; the one node the portal appends to the
    anchor is the backdrop, which becomes the anchor's last child.  The
    backdrop is fixed at the top left corner, as wide and as high as the
    viewport, filled with black at opacity 0.4, at stacking level 1000, and
    it centres its one child, the panel, on both axes. *)
Theorem Modal_renders_backdrop_in_anchor {W} (props : IModalProps W)
    (doc : Node) (anchor : Ref) :
  isOpen props = true ->
  Dom.getElementById doc "root" = Some anchor ->
  exists tree,
    outcome (run doc (Modal props)) = Returned tree /\
    hostNodes tree = [] /\
    portalMounts tree
    = (anchor, [backdropDom (hostNodes (children props))])
        :: portalMounts (children props) /\
    (exists tag st kids doc',
       nodeAt doc (refPath anchor) = Some (Element tag (Some "root") st kids) /\
       appendChildren doc (refPath anchor)
         [backdropDom (hostNodes (children props))] = Some doc' /\
       nodeAt doc' (refPath anchor)
       = Some (Element tag (Some "root") st
                 (kids ++ [backdropDom (hostNodes (children props))]))) /\
    styleGet backdropStyle "position" = Some (CssStr "fixed") /\
    styleGet backdropStyle "top" = Some (CssNum 0) /\
    styleGet backdropStyle "left" = Some (CssNum 0) /\
    styleGet backdropStyle "width" = Some (CssStr "100vw") /\
    styleGet backdropStyle "height" = Some (CssStr "100vh") /\
    styleGet backdropStyle "backgroundColor" = Some (CssStr "rgba(0,0,0,0.4)") /\
    styleGet backdropStyle "zIndex" = Some (CssNum 1000) /\
    styleGet backdropStyle "display" = Some (CssStr "flex") /\
    styleGet backdropStyle "alignItems" = Some (CssStr "center") /\
    styleGet backdropStyle "justifyContent" = Some (CssStr "center").
Proof.
  intros Hopen Hroot. rewrite outcome_Modal, Hopen, Hroot.
  eexists. split; [reflexivity |]. split; [reflexivity |].
  split; [simpl; by rewrite !app_nil_r |].
  split; [| repeat split].
  apply getElementById_element in Hroot as (_ & tag & st & kids & Hat).
  destruct (appendChildren_nodeAt _ _ _ _ _ _
              [backdropDom (hostNodes (children props))] Hat)
    as (doc' & Happ & Hat').
  by exists tag, st, kids, doc'.
Qed.

Lemma Modal_renders_backdrop_in_anchor_witness :
  exists tree,
    outcome (run pageWithRoot
               (Modal (mkModalProps true recordCall (RText "payload"))))
    = Returned tree /\
    portalMounts tree
    = [(mkRef [1; 0] ELEMENT_NODE, [backdropDom [TextNode "payload"]])].
Proof.
  destruct (Modal_renders_backdrop_in_anchor
              (mkModalProps true recordCall (RText "payload"))
              pageWithRoot (mkRef [1; 0] ELEMENT_NODE) eq_refl eq_refl)
    as (tree & Hrun & _ & Hmounts & _).
  exists tree. split; [exact Hrun | exact Hmounts].
Defined.

(** C8. When the overlay is shown, the payload is in the output as it was
    given: it is the one child of the panel, the panel is the one child of
    the backdrop, and the DOM nodes inside the panel are the payload's own
    nodes.  This holds for every payload, with nothing assumed of it. *)
Theorem Modal_passes_children_through {W} (props : IModalProps W)
    (doc : Node) (tree : ReactNode W) :
  outcome (run doc (Modal props)) = Returned tree ->
  tree <> RNull ->
  subtree tree contentPath = Some (children props) /\
  subtree tree panelPath
  = Some (RElement "div" panelStyle (Some panelOnClick) [children props]) /\
  (exists anchor,
     portalMounts tree
     = (anchor, [backdropDom (hostNodes (children props))])
         :: portalMounts (children props)).
Proof.
  rewrite outcome_Modal. intros [= <-] Hshown.
  destruct (isOpen props); [| done].
  destruct (Dom.getElementById doc "root") as [anchor |]; [| done].
  repeat split. exists anchor. simpl. by rewrite !app_nil_r.
Qed.

Lemma Modal_passes_children_through_witness :
  exists tree,
    outcome (run pageWithRoot
               (Modal (mkModalProps true recordCall (RText "payload"))))
    = Returned tree /\
    subtree tree contentPath = Some (RText "payload").
Proof.
  eexists. split; [reflexivity |].
  apply (Modal_passes_children_through
           (mkModalProps true recordCall (RText "payload"))
           pageWithRoot _ eq_refl).
  discriminate.
Defined.

(** C9. When [isOpen] is false, the render of [Modal] is the computation
    that returns [null] at once: it has no lookup in it, so against every
    document it returns [null] having queried nothing.  With [isOpen] true
    the render does look [root] up, once. *)
Theorem Modal_closed_never_queries {W} (onClose : Callback W)
    (children : ReactNode W) :
  Modal (mkModalProps false onClose children) = Ret RNull /\
  (forall doc,
     run doc (Modal (mkModalProps false onClose children))
     = mkRan (Returned RNull) []) /\
  (forall doc,
     queries (run doc (Modal (mkModalProps true onClose children))) = ["root"]).
Proof.
  split; [reflexivity |]. split; [reflexivity |].
  intros doc. by rewrite run_Modal_open.
Qed.

(** ** The shell *)

Section AppFacts.

Lemma outcome_bind {A B} (doc : Node) (m : Render A) (f : A -> Render B) :
  outcome (run doc (m ≫= f)) =
  match outcome (run doc m) with
  | Returned a => outcome (run doc (f a))
  | Thrown msg => Thrown msg
  end.
Proof.
  induction m as [a | msg | i k IH]; simpl; [reflexivity | reflexivity |].
  apply IH.
Qed.

End AppFacts.

(** C5. The flag is [false] when the shell is created: the hook call of
    [App] gives [false] on the first render, and the first render is the
    render for the flag [false], which hands [Modal] a false [isOpen] and
    so, against every document, has [null] where the overlay would be and
    queries nothing.  A click on the
    trigger button enqueues the one update [true]; while the overlay is
    shown, a click on the backdrop (which runs the [onClose] the shell
    passed) and a click on the Close button each enqueue the one update
    [false]; a click anywhere else on what the shell renders enqueues
    nothing.  So the flag is only ever set to a constant, by these three
    listeners. *)
Theorem flag_written_only_by_trigger_and_dismiss :
  initialFlag = false /\
  App None = App (Some false) /\
  (forall doc,
     exists tree,
       run doc (App None) = mkRan (Returned tree) [] /\
       subtree tree appModalPath = Some RNull /\
       portalMounts tree = []) /\
  (forall doc flag, clickUpdates doc flag triggerPath = Some [true]) /\
  (forall doc,
     hasElementWithId doc "root" ->
     clickUpdates doc true appBackdropPath = Some [false] /\
     clickUpdates doc true closeButtonPath = Some [false]) /\
  (forall doc flag p q,
     clickUpdates doc flag p = Some q ->
     (q = [true] /\ processUpdateQueue flag q = true /\
      triggerPath `prefix_of` p) \/
     (q = [false] /\ processUpdateQueue flag q = false /\
      (p = appBackdropPath \/ closeButtonPath `prefix_of` p)) \/
     (q = [] /\ ~ triggerPath `prefix_of` p /\ p <> appBackdropPath /\
      ~ closeButtonPath `prefix_of` p)).
Proof.
  split; [reflexivity |]. split; [reflexivity |].
  split; [intros doc; eexists; repeat split |].
  split; [| split].
  - intros doc flag. unfold clickUpdates, App. simpl.
    rewrite outcome_bind, outcome_Modal. reflexivity.
  - intros doc Hroot. apply getElementById_is_Some in Hroot as [anchor Hroot].
    cut (forall flag, flag = true ->
           clickUpdates doc flag appBackdropPath = Some [false] /\
           clickUpdates doc flag closeButtonPath = Some [false]);
      [intros Hcut; by apply Hcut |].
    intros flag Hflag. unfold clickUpdates, App. simpl.
    rewrite outcome_bind, outcome_Modal. simpl. rewrite Hroot, Hflag. by split.
  - intros doc flag p q. unfold clickUpdates, App. simpl.
    rewrite outcome_bind, outcome_Modal. simpl.
    unfold dispatchClick, triggerPath, appBackdropPath, closeButtonPath,
      appModalPath, backdropPath, contentPath.
    intros H.
    destruct flag; [destruct (Dom.getElementById doc "root") as [anchor |] |].
    all: descend H p; [injection H as <-; classify | .. ].
    all: repeat (descend H p; [injection H as <-; classify | .. ]).
Qed.

Lemma flag_written_only_by_trigger_and_dismiss_witness :
  clickUpdates pageWithRoot true closeButtonPath = Some [false] /\
  clickUpdates pageWithRoot false triggerPath = Some [true] /\
  processUpdateQueue true [false] = false.
Proof.
  destruct flag_written_only_by_trigger_and_dismiss
    as (_ & _ & _ & Htrigger & Hdismiss & Hall).
  assert (hasElementWithId pageWithRoot "root") as Hroot
    by (apply getElementById_is_Some; vm_compute; eauto).
  split; [exact (proj2 (Hdismiss pageWithRoot Hroot)) |].
  split; [exact (Htrigger pageWithRoot false) |].
  destruct (Hall pageWithRoot true closeButtonPath [false]
              (proj2 (Hdismiss pageWithRoot Hroot)))
    as [(Hq & _) | [(_ & Hflag & _) | (Hq & _)]];
    [discriminate Hq | exact Hflag | discriminate Hq].
Defined.



(** ** The shell as a whole *)

Section ShellFacts.

Lemma queries_bind {A B} (doc : Node) (m : Render A) (f : A -> Render B) :
  queries (run doc (m ≫= f)) =
  queries (run doc m) ++
  match outcome (run doc m) with
  | Returned a => queries (run doc (f a))
  | Thrown _ => []
  end.
Proof.
  induction m as [a | msg | i k IH]; simpl; [reflexivity | reflexivity |].
  f_equal. apply IH.
Qed.

(** Where a click on the rendered shell can land and what it enqueues. *)
Lemma clickUpdates_cases doc flag p q :
  clickUpdates doc flag p = Some q ->
  (q = [true] /\ processUpdateQueue flag q = true /\
   triggerPath `prefix_of` p) \/
  (q = [false] /\ processUpdateQueue flag q = false /\
   (p = appBackdropPath \/ closeButtonPath `prefix_of` p)) \/
  (q = [] /\ ~ triggerPath `prefix_of` p /\ p <> appBackdropPath /\
   ~ closeButtonPath `prefix_of` p).
Proof.
  unfold clickUpdates, App. simpl.
  rewrite outcome_bind, outcome_Modal. simpl.
  unfold dispatchClick, triggerPath, appBackdropPath, closeButtonPath,
    appModalPath, backdropPath, contentPath.
  intros H.
  destruct flag; [destruct (Dom.getElementById doc "root") as [anchor |] |].
  all: descend H p; [injection H as <-; classify | .. ].
  all: repeat (descend H p; [injection H as <-; classify | .. ]).
Qed.

(** Without the overlay on the page, only the trigger writes. *)
Lemma clickUpdates_not_shown doc flag p q :
  flag = false \/ Dom.getElementById doc "root" = None ->
  clickUpdates doc flag p = Some q ->
  q = [] \/ (q = [true] /\ triggerPath `prefix_of` p).
Proof.
  intros Hhidden. unfold clickUpdates, App. simpl.
  rewrite outcome_bind, outcome_Modal. simpl.
  destruct flag; [destruct (Dom.getElementById doc "root") as [anchor |] |].
  1: by destruct Hhidden.
  all: clear Hhidden.
  all: unfold dispatchClick, triggerPath; intros H.
  all: descend H p; [injection H as <-; by left | .. ].
  all: repeat (descend H p;
               [injection H as <-;
                first [by left | right; split; [reflexivity | by eexists]] | .. ]).
Qed.

End ShellFacts.

Section ShellRenderFacts.

Lemma queries_Modal {W} (props : IModalProps W) doc :
  queries (run doc (Modal props)) = if isOpen props then ["root"] else [].
Proof.
  destruct (isOpen props) eqn:H.
  - by rewrite run_Modal_open.
  - by rewrite run_Modal_closed.
Qed.

Lemma click_clickUpdates doc flag p f :
  click doc flag p = Some f ->
  exists q, clickUpdates doc flag p = Some q /\ f = processUpdateQueue flag q.
Proof.
  unfold click. destruct (clickUpdates doc flag p) as [q |]; [| discriminate].
  intros [= <-]. eauto.
Qed.

End ShellRenderFacts.

(** X1. The render of the shell never throws, whatever the document and the
    flag, and what it puts in place is always the same: the [div] with the
    heading, the paragraph and the trigger button.  The overlay adds nothing
    there, open or closed. *)
Theorem App_always_renders_the_shell (doc : Node) (memoizedState : option bool) :
  exists tree,
    outcome (run doc (App memoizedState)) = Returned tree /\
    hostNodes tree =
    [ Element "div" None appStyle
        [ Element "h1" None [] [TextNode "React Portal Example"];
          Element "p" None []
            [TextNode "This demonstrates how to render modals outside the root element."];
          Element "button" None openButtonStyle [TextNode "Open Modal"] ] ].
Proof.
  unfold App. simpl. rewrite outcome_bind, outcome_Modal. simpl.
  eexists. split; [reflexivity |].
  destruct (default false memoizedState);
    [destruct (Dom.getElementById doc "root") |]; reflexivity.
Qed.

(** X2. The render of the shell looks [root] up once when the flag is true
    and does not query the document at all when the flag is false or on the
    first render. *)
Theorem App_queries_only_when_open (doc : Node) (memoizedState : option bool) :
  queries (run doc (App memoizedState))
  = if default false memoizedState then ["root"] else [].
Proof.
  unfold App. simpl. rewrite queries_bind, queries_Modal, outcome_Modal. simpl.
  by destruct (default false memoizedState).
Qed.

(** X3. On a page with the anchor: the first render mounts no portal; a
    click on the trigger, or on its label, sets the flag; and the render
    that follows mounts exactly one portal, under the anchor, whose content
    is the backdrop with the heading, the paragraph and the Close button of
    the shell inside the panel. *)
Theorem opening_mounts_overlay_under_anchor (doc : Node) (anchor : Ref) :
  Dom.getElementById doc "root" = Some anchor ->
  (exists first,
     outcome (run doc (App None)) = Returned first /\ portalMounts first = []) /\
  click doc initialFlag triggerPath = Some true /\
  click doc initialFlag (triggerPath ++ [0]) = Some true /\
  (exists tree,
     outcome (run doc (App (Some true))) = Returned tree /\
     portalMounts tree =
     [ (anchor,
        [ backdropDom
            [ Element "h2" None [] [TextNode "Hello from the Portal 👋"];
              Element "p" None []
                [TextNode "This content is rendered outside the main DOM tree!"];
              Element "button" None [] [TextNode "Close"] ] ]) ]).
Proof.
  intros Hroot. split; [by eexists |]. split; [| split].
  - reflexivity.
  - reflexivity.
  - cut (forall flag, flag = true ->
           exists tree,
             outcome (run doc (App (Some flag))) = Returned tree /\
             portalMounts tree =
             [ (anchor,
                [ backdropDom
                    [ Element "h2" None [] [TextNode "Hello from the Portal 👋"];
                      Element "p" None []
                        [TextNode "This content is rendered outside the main DOM tree!"];
                      Element "button" None [] [TextNode "Close"] ] ]) ]);
      [intros Hcut; by apply Hcut |].
    intros flag Hflag. unfold App. simpl.
    rewrite outcome_bind, outcome_Modal. simpl. rewrite Hroot, Hflag.
    eexists. split; reflexivity.
Qed.

Lemma opening_mounts_overlay_under_anchor_witness :
  click pageWithRoot initialFlag triggerPath = Some true.
Proof.
  exact (proj1 (proj2 (opening_mounts_overlay_under_anchor pageWithRoot
                         (mkRef [1; 0] ELEMENT_NODE) eq_refl))).
Defined.

Section ShellLoopFacts.

(** On a page with the anchor, each dismiss path clears a set flag. *)
Lemma click_dismiss doc dismiss :
  hasElementWithId doc "root" ->
  dismiss ∈ [appBackdropPath; closeButtonPath; closeButtonPath ++ [0]] ->
  click doc true dismiss = Some false.
Proof.
  intros Hroot Hd. apply getElementById_is_Some in Hroot as [anchor Hroot].
  cut (forall flag, flag = true -> click doc flag dismiss = Some false);
    [intros Hcut; by apply Hcut |].
  intros flag Hflag. unfold click, clickUpdates, App. simpl.
  rewrite outcome_bind, outcome_Modal. simpl. rewrite Hroot, Hflag.
  rewrite !elem_of_cons, elem_of_nil in Hd.
  destruct Hd as [-> | [-> | [-> | []]]]; reflexivity.
Qed.

Lemma click_trigger doc flag : click doc flag triggerPath = Some true.
Proof.
  unfold click, clickUpdates, App. simpl.
  rewrite outcome_bind, outcome_Modal. reflexivity.
Qed.

End ShellLoopFacts.

(** X4. On a page with the anchor, opening and then dismissing, by the
    backdrop or by the Close button (or its label), brings the flag back to
    [false]; so does any run of such cycles, each with its own choice of
    dismiss path. *)
Theorem open_dismiss_cycles_return_to_closed (doc : Node)
    (dismissals : list (list nat)) :
  hasElementWithId doc "root" ->
  Forall (fun d => d ∈ [appBackdropPath; closeButtonPath; closeButtonPath ++ [0]])
    dismissals ->
  clicks doc initialFlag (flat_map (fun d => [triggerPath; d]) dismissals)
  = Some initialFlag.
Proof.
  intros Hroot Hall. change initialFlag with false.
  induction Hall as [| d ds Hd _ IH]; [reflexivity |].
  cbn [flat_map app clicks].
  rewrite click_trigger, (click_dismiss _ _ Hroot Hd). exact IH.
Qed.

Lemma open_dismiss_cycles_return_to_closed_witness :
  clicks pageWithRoot initialFlag
    (flat_map (fun d => [triggerPath; d]) [appBackdropPath; closeButtonPath])
  = Some initialFlag.
Proof.
  apply open_dismiss_cycles_return_to_closed.
  - apply getElementById_is_Some. vm_compute. eauto.
  - repeat first [apply Forall_nil_2 | apply Forall_cons_2];
      rewrite !elem_of_cons; auto.
Defined.

(** X5. While the overlay is shown, a click on the panel or on anything in
    it other than the Close button enqueues no update and leaves the flag
    set. *)
Theorem click_inside_panel_keeps_flag (doc : Node) (p : list nat) (f : bool) :
  click doc true (appPanelPath ++ p) = Some f ->
  ~ closeButtonPath `prefix_of` (appPanelPath ++ p) ->
  f = true /\ clickUpdates doc true (appPanelPath ++ p) = Some [].
Proof.
  intros Hclick Hnot.
  apply click_clickUpdates in Hclick as (q & Hq & ->).
  destruct (clickUpdates_cases _ _ _ _ Hq)
    as [(_ & _ & [k Hk]) | [(_ & _ & [Hb | Hc]) | (-> & _)]].
  - discriminate Hk.
  - discriminate Hb.
  - by destruct Hnot.
  - by split.
Qed.

Lemma click_inside_panel_keeps_flag_witness :
  clickUpdates pageWithRoot true (appPanelPath ++ [0; 0]) = Some [].
Proof.
  refine (proj2 (click_inside_panel_keeps_flag pageWithRoot [0; 0] true
                   eq_refl _)).
  intros [k Hk]. discriminate Hk.
Defined.

(** X6. On a page without the anchor the shell still renders and the
    trigger still sets the flag, but no render mounts a portal and no click,
    and no run of clicks, clears a set flag: the two dismiss paths are not
    on the page. *)
Theorem without_anchor_flag_is_never_cleared (doc : Node) :
  ~ hasElementWithId doc "root" ->
  (forall flag, exists tree,
     outcome (run doc (App (Some flag))) = Returned tree /\
     portalMounts tree = []) /\
  (forall flag, click doc flag triggerPath = Some true) /\
  (forall ps f, clicks doc true ps = Some f -> f = true).
Proof.
  intros Habsent. apply getElementById_None in Habsent.
  split; [| split].
  - intros flag. unfold App. simpl.
    rewrite outcome_bind, outcome_Modal. simpl. rewrite Habsent.
    eexists. split; [reflexivity |]. by destruct flag.
  - apply click_trigger.
  - induction ps as [| p ps IH]; intros f Hf; simpl in Hf.
    + by injection Hf.
    + destruct (click doc true p) as [f' |] eqn:Hclick; [| discriminate].
      apply click_clickUpdates in Hclick as (q & Hq & ->).
      apply clickUpdates_not_shown in Hq as [-> | [-> _]]; auto.
Qed.

Lemma without_anchor_flag_is_never_cleared_witness :
  exists f, clicks pageWithoutRoot true [[1]; triggerPath] = Some f /\ f = true.
Proof.
  eexists. split; [reflexivity |].
  refine (proj2 (proj2 (without_anchor_flag_is_never_cleared pageWithoutRoot _))
            [[1]; triggerPath] _ eq_refl).
  apply getElementById_None. reflexivity.
Defined.

(** ** The overlay inside a React parent *)

Section PortalBubbling.

Context {W : Type}.
Implicit Types (props : IModalProps W) (e : SyntheticEvent) (w : W).



End PortalBubbling.



(** X8. While the overlay is shown, a click on the Close button, or on its
    label, runs the button's listener and then the panel's, and nothing
    else: the [onClose] the shell passed is not called, the update [false]
    is enqueued once, and the event ends with propagation stopped. *)
Theorem close_button_click_bypasses_onClose (doc : Node) (p : list nat) :
  hasElementWithId doc "root" ->
  p ∈ [closeButtonPath; closeButtonPath ++ [0]] ->
  exists tree,
    outcome (run doc (App (Some true))) = Returned tree /\
    dispatchClick tree p []
    = Some (mkDispatched (stopPropagation (clickEvent p)) [false]
              [closeButtonPath; appPanelPath]).
Proof.
  intros Hroot Hp. apply getElementById_is_Some in Hroot as [anchor Hroot].
  cut (forall flag, flag = true ->
         exists tree,
           outcome (run doc (App (Some flag))) = Returned tree /\
           dispatchClick tree p []
           = Some (mkDispatched (stopPropagation (clickEvent p)) [false]
                     [closeButtonPath; appPanelPath]));
    [intros Hcut; by apply Hcut |].
  intros flag Hflag. unfold App. simpl.
  rewrite outcome_bind, outcome_Modal. simpl. rewrite Hroot, Hflag.
  eexists. split; [reflexivity |].
  rewrite !elem_of_cons, elem_of_nil in Hp.
  destruct Hp as [-> | [-> | []]]; reflexivity.
Qed.

Lemma close_button_click_bypasses_onClose_witness :
  exists tree,
    outcome (run pageWithRoot (App (Some true))) = Returned tree /\
    dispatchClick tree closeButtonPath []
    = Some (mkDispatched (stopPropagation (clickEvent closeButtonPath)) [false]
              [closeButtonPath; appPanelPath]).
Proof.
  apply (close_button_click_bypasses_onClose pageWithRoot closeButtonPath).
  - apply getElementById_is_Some. vm_compute. eauto.
  - apply list_elem_of_here.
Defined.

(** X9. On one render of the shown overlay, a run of clicks that land on
    the backdrop or on the panel calls [onClose] once for each backdrop
    click, in order, each time with that click's event, and does nothing
    for the panel clicks. *)
Theorem backdrop_clicks_call_onClose_once_each {W} (props : IModalProps W)
    (doc : Node) (tree : ReactNode W) (ps : list (list nat)) (w : W) :
  outcome (run doc (Modal props)) = Returned tree ->
  tree <> RNull ->
  Forall (fun p => p = backdropPath \/ p = panelPath) ps ->
  dispatchAll tree ps w
  = Some (foldl
            (fun w' p =>
               if decide (p = backdropPath)
               then onClose props [VEvent (clickEvent backdropPath)] w'
               else w')
            w ps).
Proof.
  rewrite outcome_Modal. intros [= <-] Hshown Hall.
  destruct (isOpen props); [| done].
  destruct (Dom.getElementById doc "root") as [anchor |]; [| done].
  clear Hshown. revert w.
  induction Hall as [| p ps [-> | ->] _ IH]; intros w; [reflexivity | |].
  - cbn [dispatchAll foldl]. rewrite decide_True by reflexivity.
    rewrite <- IH. reflexivity.
  - cbn [dispatchAll foldl]. rewrite decide_False by discriminate.
    rewrite <- IH. reflexivity.
Qed.

Lemma backdrop_clicks_call_onClose_once_each_witness :
  exists tree,
    outcome (run pageWithRoot
               (Modal (mkModalProps true recordCall (RText "payload"))))
    = Returned tree /\
    dispatchAll tree [backdropPath; panelPath; backdropPath] []
    = Some [ [VEvent (clickEvent backdropPath)];
             [VEvent (clickEvent backdropPath)] ].
Proof.
  eexists. split; [reflexivity |].
  refine (backdrop_clicks_call_onClose_once_each
            (mkModalProps true recordCall (RText "payload")) pageWithRoot _
            [backdropPath; panelPath; backdropPath] [] eq_refl _ _).
  - discriminate.
  - repeat first [apply Forall_nil_2 | apply Forall_cons_2]; auto.
Defined.

(** X10. What the shell renders mounts a portal exactly when the flag is
    true and the page has the anchor, and it never mounts more than one. *)
Theorem App_mounts_overlay_iff (doc : Node) (memoizedState : option bool) :
  exists tree,
    outcome (run doc (App memoizedState)) = Returned tree /\
    (portalMounts tree <> [] <->
     default false memoizedState = true /\ hasElementWithId doc "root") /\
    length (portalMounts tree) <= 1.
Proof.
  unfold App. simpl. rewrite outcome_bind, outcome_Modal. simpl.
  eexists. split; [reflexivity |].
  destruct (default false memoizedState).
  - destruct (Dom.getElementById doc "root") as [anchor |] eqn:Hroot.
    + assert (hasElementWithId doc "root") as Hhas
        by (apply getElementById_is_Some; eauto).
      simpl. split; [split; [auto | discriminate] | lia].
    + apply getElementById_None in Hroot.
      simpl. split; [split; [done | tauto] | lia].
  - simpl. split; [split; [done | intros [? _]; discriminate] | lia].
Qed.
